(** * The SIR epidemic model notebook: embedding and verification

    Source: [SIR_models/.ipynb_checkpoints/SIR_model-checkpoint.ipynb].

    The notebook defines the right-hand side [deriv] of the SIR system,
    a handful of top-level constants, and hands both to
    [scipy.integrate.odeint].  Python numbers ([int] and [float]) are
    idealised here as exact rationals ([Qc], canonical fractions with
    Leibniz equality): every statement below is a statement of exact
    arithmetic, rounding is not modelled.  Division keeps its partiality:
    dividing by zero is a failure, not a number. *)

From Stdlib Require Import QArith Qcanon Field.
From stdpp Require Import base option list strings gmap numbers.

Local Open Scope Qc_scope.

(** ** Python outcomes: a small error monad *)

Module Py.

Inductive exn : Type :=
| ZeroDivisionError
| NameError (name : string)
| TypeError (name : string).

Inductive result (A : Type) : Type :=
| Ok (a : A)
| Err (e : exn).
Arguments Ok {A} a.
Arguments Err {A} e.

Definition bind {A B : Type} (m : result A) (k : A -> result B) : result B :=
  match m with
  | Ok a => k a
  | Err e => Err e
  end.

(** Outcomes over a type with decidable equality can be compared. *)
#[global] Instance exn_eq_dec : EqDecision exn.
Proof. solve_decision. Defined.

#[global] Instance result_eq_dec {A : Type} `{EqDecision A} : EqDecision (result A).
Proof. solve_decision. Defined.

End Py.
Export Py.

Notation "'let*' x ':=' m 'in' k" := (Py.bind m (fun x => k))
  (at level 10, x name, m at level 100, k at level 200).

(** ** Numbers *)

(** Integer literals ([1000]) and decimal literals ([0.2] is [2/10]) of
    the notebook, as exact rationals. *)
Definition int_lit (z : Z) : Qc := Q2Qc (inject_Z z).
Definition float_lit (n : Z) (d : positive) : Qc := Q2Qc (n # d).

(** Python's true division [a / b]: it fails when the divisor is zero
    ([ZeroDivisionError] on Python numbers; on NumPy scalars the same
    division gives an infinity or a NaN, which exact arithmetic does not
    have: the same failure here). *)
Definition py_div (a b : Qc) : result Qc :=
  if Qc_eq_dec b 0 then Err ZeroDivisionError else Ok (a / b).

(** ** The compartment state *)

(** [y] in the notebook: the triple [(S, I, R)]. *)
Definition state : Type := Qc * Qc * Qc.

(** ** The right-hand side, from the source

<<
def deriv(y, t, N, beta, gamma):
    S, I, R = y
    dSdt = -beta * S * I / N
    dIdt = beta * S * I / N - gamma * I
    dRdt = gamma * I
    return dSdt, dIdt, dRdt
>>
    Unary minus binds tighter than [*], and [*] and [/] associate to the
    left, so [dSdt] is [(((-beta) * S) * I) / N].  The unpacking
    [S, I, R = y] is written with projections, [S] and [I] being
    constructor names in Rocq patterns. *)
Definition deriv (y : state) (t N beta gamma : Qc) : result state :=
  let S := y.1.1 in let I := y.1.2 in let R := y.2 in
  let* dSdt := py_div (- beta * S * I) N in
  let* q := py_div (beta * S * I) N in
  let dIdt := q - gamma * I in
  let dRdt := gamma * I in
  Ok (dSdt, dIdt, dRdt).

(** ** The right-hand side, in the words of the specification

    dS/dt = −β·S·I/N,  dI/dt = β·S·I/N − γ·I,  dR/dt = γ·I,
    read as the mathematical formulas: the negative of the quotient
    [β·S·I/N] for the first component. *)
Definition sir_rhs (N beta gamma : Qc) (y : state) : state :=
  let S := y.1.1 in let I := y.1.2 in let R := y.2 in
  (- (beta * S * I / N), beta * S * I / N - gamma * I, gamma * I).

(** ** Arithmetic on states *)

Definition vzero : state := (0, 0, 0).

Definition vadd (a b : state) : state :=
  (a.1.1 + b.1.1, a.1.2 + b.1.2, a.2 + b.2).

Definition vscale (h : Qc) (a : state) : state :=
  (h * a.1.1, h * a.1.2, h * a.2).

(** [cs_1 * ks_1 + cs_2 * ks_2 + ...], over the common prefix. *)
Fixpoint lincomb (cs : list Qc) (ks : list state) : state :=
  match cs, ks with
  | c :: cs', k :: ks' => vadd (vscale c k) (lincomb cs' ks')
  | _, _ => vzero
  end.

(** The head count [S + I + R] of a state. *)
Definition total (y : state) : Qc := y.1.1 + y.1.2 + y.2.

(** ** The integrator

    The notebook integrates with [scipy.integrate.odeint], a library
    routine whose code is not among the sources.  Everything in this
    section is therefore modelled from the specification, which asks for
    "a basic Runge-Kutta step" (section 1) or "a simple fixed-step method
    directly on the output grid", "e.g., a 4th-order Runge-Kutta"
    (section 9). *)

(** Modelled from the spec: a stage of an explicit Runge-Kutta method,
    its node [c_i] and the coefficients [a_i1 .. a_i(i-1)] applied to the
    earlier slopes. *)
Record stage : Type := Stage { node : Qc; coeffs : list Qc }.

(** Modelled from the spec: the method, as a Butcher tableau (the stages
    in order, and the weights [b_i]). *)
Record tableau : Type := Tableau { stages : list stage; weights : list Qc }.

(** Modelled from the spec: the slopes [k_1 .. k_s] of one step from
    [(t, y)] with step [h],
    [k_i = f (y + h * sum_j a_ij k_j) (t + c_i h)].  A failure of [f]
    aborts the step. *)
Fixpoint rk_stages (f : state -> Qc -> result state) (y : state) (t h : Qc)
    (sts : list stage) (ks : list state) : result (list state) :=
  match sts with
  | [] => Ok ks
  | st :: sts' =>
      let* k := f (vadd y (vscale h (lincomb (coeffs st) ks))) (t + node st * h) in
      rk_stages f y t h sts' (ks ++ [k])
  end.

(** Modelled from the spec: one step, [y + h * sum_i b_i k_i]. *)
Definition rk_step (m : tableau) (f : state -> Qc -> result state)
    (y : state) (t h : Qc) : result state :=
  let* ks := rk_stages f y t h (stages m) [] in
  Ok (vadd y (vscale h (lincomb (weights m) ks))).

(** Modelled from the spec: the samples at the grid points after [t],
    starting from [y] at [t], one step per grid interval. *)
Fixpoint integrate (m : tableau) (f : state -> Qc -> result state)
    (y : state) (t : Qc) (ts : list Qc) : result (list state) :=
  match ts with
  | [] => Ok []
  | t' :: ts' =>
      let* y' := rk_step m f y t (t' - t) in
      let* rest := integrate m f y' t' ts' in
      Ok (y' :: rest)
  end.

(** Modelled from the spec: the integrator [odeint].  The notebook calls
    [scipy.integrate.odeint(deriv, y0, t, args=(N, beta, gamma))], a
    library routine whose code is not among the sources.  The
    specification gives its contract (section 4.1: the sampled states
    for every point of the grid, in grid order, the first being the
    initial state) and names the integrators that meet it (sections 1
    and 9: "a basic Runge-Kutta step", "a simple fixed-step method
    directly on the output grid", "e.g., a 4th-order Runge-Kutta").  It
    is modelled as that family: an explicit Runge-Kutta method, given by
    its tableau [m], taking one step per grid interval and calling
    [func(y, t, *args)] for the slopes.  One row per grid point; an
    empty grid has no rows. *)
Definition odeint (m : tableau)
    (func : state -> Qc -> Qc -> Qc -> Qc -> result state)
    (y0 : state) (t : list Qc) (args : Qc * Qc * Qc) : result (list state) :=
  match t with
  | [] => Ok []
  | t0 :: ts =>
      let* rest := integrate m (fun y s => func y s args.1.1 args.1.2 args.2) y0 t0 ts in
      Ok (y0 :: rest)
  end.

(** Modelled from the spec: two members of the family, forward Euler and
    the classical fourth-order method. *)
Definition euler : tableau :=
  {| stages := [Stage 0 []]; weights := [1] |}.

Definition rk4 : tableau :=
  {| stages := [ Stage 0 [];
                 Stage (float_lit 1 2) [float_lit 1 2];
                 Stage (float_lit 1 2) [0; float_lit 1 2];
                 Stage 1 [0; 0; 1] ];
     weights := [float_lit 1 6; float_lit 1 3; float_lit 1 3; float_lit 1 6] |}.

(** Modelled from the spec: the time grid constructor [np.linspace],
    another library routine absent from the sources; the specification
    asks for "an ordered sequence of non-decreasing time points", here
    [num] evenly spaced points from [start] to [stop] inclusive. *)
Definition linspace (start stop : Qc) (num : nat) : list Qc :=
  let step := (stop - start) / int_lit (Z.of_nat (num - 1)) in
  map (fun i : nat => start + int_lit (Z.of_nat i) * step) (seq 0 num).

(** ** The notebook *)

(** The configuration: the values the notebook writes as literals. *)
Record config : Type := Config {
  cfg_N : Qc;
  cfg_I0 : Qc;
  cfg_R0 : Qc;
  cfg_beta : Qc;
  cfg_gamma : Qc;
  cfg_t : list Qc
}.

(** The constants of the source:
<<
N = 1000
I0, R0 = 1, 0
beta, gamma = 0.2, 1./10
t = np.linspace(0, 160, 160)
>> *)
Definition notebook_config : config :=
  {| cfg_N := int_lit 1000;
     cfg_I0 := int_lit 1;
     cfg_R0 := int_lit 0;
     cfg_beta := float_lit 2 10;
     cfg_gamma := int_lit 1 / int_lit 10;
     cfg_t := linspace (int_lit 0) (int_lit 160) 160 |}.

(** What a global name of the kernel can be bound to. *)
Inductive value : Type :=
| VNum (x : Qc)
| VTuple (y : state)
| VArray (xs : list Qc)
| VMatrix (rows : list state)
| VFunc (f : state -> Qc -> Qc -> Qc -> Qc -> result state).

(** Reading a global: an unbound name is a [NameError], a value of the
    wrong kind a [TypeError]. *)
Definition get_num (g : gmap string value) (x : string) : result Qc :=
  match g !! x with
  | Some (VNum q) => Ok q
  | Some _ => Err (TypeError x)
  | None => Err (NameError x)
  end.

Definition get_tuple (g : gmap string value) (x : string) : result state :=
  match g !! x with
  | Some (VTuple y) => Ok y
  | Some _ => Err (TypeError x)
  | None => Err (NameError x)
  end.

Definition get_array (g : gmap string value) (x : string) : result (list Qc) :=
  match g !! x with
  | Some (VArray l) => Ok l
  | Some _ => Err (TypeError x)
  | None => Err (NameError x)
  end.

Definition get_matrix (g : gmap string value) (x : string) : result (list state) :=
  match g !! x with
  | Some (VMatrix l) => Ok l
  | Some _ => Err (TypeError x)
  | None => Err (NameError x)
  end.

Definition get_func (g : gmap string value) (x : string)
  : result (state -> Qc -> Qc -> Qc -> Qc -> result state) :=
  match g !! x with
  | Some (VFunc f) => Ok f
  | Some _ => Err (TypeError x)
  | None => Err (NameError x)
  end.

(** The cell of constants, with the literals taken from [c]:
<<
N = ...
I0, R0 = ..., ...
S0 = N - I0 - R0
beta, gamma = ..., ...
t = ...
>>
    The grid is taken as a value: the read of the library name [np] in
    [np.linspace(...)] is not modelled, the import cell is taken to have
    run. *)
Definition cell_constants (c : config) (g : gmap string value)
  : result (gmap string value) :=
  let g := <["N" := VNum (cfg_N c)]> g in
  let g := <["R0" := VNum (cfg_R0 c)]> (<["I0" := VNum (cfg_I0 c)]> g) in
  let* N := get_num g "N" in
  let* I0 := get_num g "I0" in
  let* R0 := get_num g "R0" in
  let g := <["S0" := VNum (N - I0 - R0)]> g in
  let g := <["gamma" := VNum (cfg_gamma c)]> (<["beta" := VNum (cfg_beta c)]> g) in
  Ok (<["t" := VArray (cfg_t c)]> g).

(** [def deriv(y, t, N, beta, gamma): ...] binds the name [deriv]. *)
Definition cell_deriv (g : gmap string value) : result (gmap string value) :=
  Ok (<["deriv" := VFunc deriv]> g).

(** [y0 = S0, I0, R0] *)
Definition cell_y0 (g : gmap string value) : result (gmap string value) :=
  let* S0 := get_num g "S0" in
  let* I0 := get_num g "I0" in
  let* R0 := get_num g "R0" in
  Ok (<["y0" := VTuple (S0, I0, R0)]> g).

(** The integration cell:
<<
ret = odeint(deriv, y0, t, args=(N, beta, gamma))
S, I, R = ret.T
>>
    [ret] has one row per grid point; the three rows of its transpose
    are the columns of [ret].  The read of the library name [odeint] is
    not modelled, the import cell is taken to have run. *)
Definition cell_integrate (m : tableau) (g : gmap string value)
  : result (gmap string value) :=
  let* f := get_func g "deriv" in
  let* y0 := get_tuple g "y0" in
  let* t := get_array g "t" in
  let* N := get_num g "N" in
  let* beta := get_num g "beta" in
  let* gamma := get_num g "gamma" in
  let* ret := odeint m f y0 t (N, beta, gamma) in
  let g := <["ret" := VMatrix ret]> g in
  let* ret := get_matrix g "ret" in
  let g := <["S" := VArray (map (fun y : state => y.1.1) ret)]> g in
  let g := <["I" := VArray (map (fun y : state => y.1.2) ret)]> g in
  Ok (<["R" := VArray (map (fun y : state => y.2) ret)]> g).

(** Running the cells in order, from whatever the kernel holds after
    the import cell.  The import cell and the plotting cell are left
    out: the first binds the library names [np], [odeint] and [plt],
    whose reads are not modelled, the second only reads [t], [S], [I]
    and [R]. *)
Definition notebook (m : tableau) (c : config) (g : gmap string value)
  : result (gmap string value) :=
  let* g := cell_constants c g in
  let* g := cell_deriv g in
  let* g := cell_y0 g in
  cell_integrate m g.

(** The sampled trajectory of a run: the rows of [ret]. *)
Definition trajectory (m : tableau) (c : config) (g : gmap string value)
  : result (list state) :=
  let* g' := notebook m c g in
  get_matrix g' "ret".

(** The output sequences of a run: the arrays [S], [I], [R]. *)
Definition outputs (m : tableau) (c : config) (g : gmap string value)
  : result (list Qc * list Qc * list Qc) :=
  let* g' := notebook m c g in
  let* S := get_array g' "S" in
  let* I := get_array g' "I" in
  let* R := get_array g' "R" in
  Ok (S, I, R).

(** ** Valid configurations, in the words of the specification

    N > 0, beta > 0, gamma > 0, non-negative initial counts that do not
    exceed the population (so that S0 = N - I0 - R0 is non-negative too). *)
Definition valid_config (c : config) : bool :=
  bool_decide (0 < cfg_N c)
  && bool_decide (0 < cfg_beta c)
  && bool_decide (0 < cfg_gamma c)
  && bool_decide (0 <= cfg_I0 c)
  && bool_decide (0 <= cfg_R0 c)
  && bool_decide (cfg_I0 c + cfg_R0 c <= cfg_N c).

(** The initial state and the extra arguments a configuration leads to. *)
Definition initial_state (c : config) : state :=
  (cfg_N c - cfg_I0 c - cfg_R0 c, cfg_I0 c, cfg_R0 c).

Definition rate_args (c : config) : Qc * Qc * Qc :=
  (cfg_N c, cfg_beta c, cfg_gamma c).

(** A configuration the specification calls invalid: the constants of
    the source with the contact rate negated ([beta = -0.2]), sampled at
    days 0 and 1. *)
Definition negative_rate_config : config :=
  {| cfg_N := int_lit 1000;
     cfg_I0 := int_lit 1;
     cfg_R0 := int_lit 0;
     cfg_beta := float_lit (-2) 10;
     cfg_gamma := int_lit 1 / int_lit 10;
     cfg_t := [int_lit 0; int_lit 1] |}.

(** A valid configuration on a coarse grid: everybody infected at day 0,
    the rates of the source, sampled every twenty days. *)
Definition coarse_grid_config : config :=
  {| cfg_N := int_lit 1000;
     cfg_I0 := int_lit 1000;
     cfg_R0 := int_lit 0;
     cfg_beta := float_lit 2 10;
     cfg_gamma := int_lit 1 / int_lit 10;
     cfg_t := [int_lit 0; int_lit 20; int_lit 40] |}.

(** ** The plotting cell *)

(** What one [ax.plot(x, y, ..., label=...)] call is given. *)
Record curve : Type := Curve { xdata : list Qc; ydata : list Qc; label : string }.

(** [a / d] for an array [a] and a number [d]: the division of every
    element; there is nothing to divide in an empty array. *)
Fixpoint array_div (a : list Qc) (d : Qc) : result (list Qc) :=
  match a with
  | [] => Ok []
  | x :: a' =>
      let* q := py_div x d in
      let* qs := array_div a' d in
      Ok (q :: qs)
  end.

(** The data of the three curves:
<<
ax.plot(t, S/1000, 'b', alpha=0.5, lw=2, label='Susceptible')
ax.plot(t, I/1000, 'r', alpha=0.5, lw=2, label='Infected')
ax.plot(t, R/1000, 'g', alpha=0.5, lw=2, label='Recovered with immunity')
>>
    The divisor is the literal [1000], not [N].  Colours, axes and the
    legend are presentation and are left out, and so are the reads of
    the library name [plt] (the import cell is taken to have run) and
    the names [fig], [ax] and [legend] the cell binds. *)
Definition cell_plot (g : gmap string value) : result (list curve) :=
  let* t1 := get_array g "t" in
  let* S := get_array g "S" in
  let* yS := array_div S (int_lit 1000) in
  let* t2 := get_array g "t" in
  let* I := get_array g "I" in
  let* yI := array_div I (int_lit 1000) in
  let* t3 := get_array g "t" in
  let* R := get_array g "R" in
  let* yR := array_div R (int_lit 1000) in
  Ok [ Curve t1 yS "Susceptible";
       Curve t2 yI "Infected";
       Curve t3 yR "Recovered with immunity" ].

(** ** Auxiliary notions for the statements below *)

(** The names the cells of [notebook] assign. *)
Definition notebook_names : list string :=
  ["N"; "I0"; "R0"; "S0"; "beta"; "gamma"; "t"; "deriv"; "y0"; "ret"; "S"; "I"; "R"].

(** The kernel after the assignments of a run whose integration returned
    [ret], in the order the cells make them. *)
Definition kernel_after (c : config) (ret : list state) (g : gmap string value)
  : gmap string value :=
  <["R" := VArray (map (fun y : state => y.2) ret)]>
  (<["I" := VArray (map (fun y : state => y.1.2) ret)]>
  (<["S" := VArray (map (fun y : state => y.1.1) ret)]>
  (<["ret" := VMatrix ret]>
  (<["y0" := VTuple (initial_state c)]>
  (<["deriv" := VFunc deriv]>
  (<["t" := VArray (cfg_t c)]>
  (<["gamma" := VNum (cfg_gamma c)]>
  (<["beta" := VNum (cfg_beta c)]>
  (<["S0" := VNum (cfg_N c - cfg_I0 c - cfg_R0 c)]>
  (<["R0" := VNum (cfg_R0 c)]>
  (<["I0" := VNum (cfg_I0 c)]>
  (<["N" := VNum (cfg_N c)]> g)))))))))))).

(** The constants of the source on a three-day grid, and the same with
    the population doubled. *)
Definition three_day_config : config :=
  {| cfg_N := int_lit 1000;
     cfg_I0 := int_lit 1;
     cfg_R0 := int_lit 0;
     cfg_beta := float_lit 2 10;
     cfg_gamma := int_lit 1 / int_lit 10;
     cfg_t := [int_lit 0; int_lit 1; int_lit 2] |}.

Definition doubled_config : config :=
  {| cfg_N := int_lit 2000;
     cfg_I0 := int_lit 1;
     cfg_R0 := int_lit 0;
     cfg_beta := float_lit 2 10;
     cfg_gamma := int_lit 1 / int_lit 10;
     cfg_t := [int_lit 0; int_lit 1; int_lit 2] |}.

(** Applying a function to the value of an outcome. *)
Definition result_map {A B : Type} (f : A -> B) (r : result A) : result B :=
  let* a := r in Ok (f a).

(** ** Monotone sequences and short steps *)

(** No entry of [l] is above the entry before it. *)
Fixpoint nonincreasing (l : list Qc) : bool :=
  match l with
  | [] => true
  | a :: l' =>
      match l' with [] => true | b :: _ => bool_decide (b <= a) end
      && nonincreasing l'
  end.

(** No entry of [l] is below the entry before it. *)
Fixpoint nondecreasing (l : list Qc) : bool :=
  match l with
  | [] => true
  | a :: l' =>
      match l' with [] => true | b :: _ => bool_decide (a <= b) end
      && nondecreasing l'
  end.



(** * Properties *)

(** ** Division and the right-hand side *)

Lemma py_div_ok (a b : Qc) : b <> 0 -> py_div a b = Ok (a / b).
Proof.
  intros Hb. unfold py_div.
  destruct (Qc_eq_dec b 0) as [E | _]; [contradiction | reflexivity].
Qed.

Lemma py_div_zero (a : Qc) : py_div a 0 = Err ZeroDivisionError.
Proof.
  unfold py_div. destruct (Qc_eq_dec 0 0) as [_ | NE]; [reflexivity | now destruct NE].
Qed.

Lemma deriv_ok (S I R t N beta gamma : Qc) :
  N <> 0 ->
  deriv (S, I, R) t N beta gamma
  = Ok (- beta * S * I / N, beta * S * I / N - gamma * I, gamma * I).
Proof.
  intros HN. unfold deriv. cbn [fst snd].
  rewrite !py_div_ok by assumption. reflexivity.
Qed.

Lemma deriv_zero_N (y : state) (t beta gamma : Qc) :
  deriv y t 0 beta gamma = Err ZeroDivisionError.
Proof.
  unfold deriv. rewrite py_div_zero. reflexivity.
Qed.

Lemma Qc_pos_nonzero (x : Qc) : 0 < x -> x <> 0.
Proof.
  intros H E. apply Qclt_not_eq in H. congruence.
Qed.

(** C1: for N ≠ 0, [deriv] returns exactly the SIR right-hand side of the
    specification, (−β·S·I/N, β·S·I/N − γ·I, γ·I), at every state and for
    every parameter setting. *)
Theorem deriv_is_sir_rhs (S I R t N beta gamma : Qc) :
  N <> 0 ->
  deriv (S, I, R) t N beta gamma = Ok (sir_rhs N beta gamma (S, I, R)).
Proof.
  intros HN. rewrite deriv_ok by assumption. unfold sir_rhs. cbn [fst snd].
  do 3 f_equal. field. assumption.
Qed.

Lemma deriv_is_sir_rhs_witness :
  int_lit 1000 <> 0 /\
  deriv (int_lit 999, int_lit 1, int_lit 0) 0
        (int_lit 1000) (float_lit 2 10) (float_lit 1 10)
  = Ok (sir_rhs (int_lit 1000) (float_lit 2 10) (float_lit 1 10)
                (int_lit 999, int_lit 1, int_lit 0)).
Proof.
  split; [discriminate | apply deriv_is_sir_rhs; discriminate].
Defined.

(** ** Arithmetic on states: the head count is linear *)

Lemma total_vadd (a b : state) : total (vadd a b) = total a + total b.
Proof. unfold total, vadd. cbn [fst snd]. ring. Qed.

Lemma total_vscale (h : Qc) (a : state) : total (vscale h a) = h * total a.
Proof. unfold total, vscale. cbn [fst snd]. ring. Qed.

Lemma total_lincomb (cs : list Qc) (ks : list state) :
  Forall (fun k => total k = 0) ks -> total (lincomb cs ks) = 0.
Proof.
  intros Hks. revert cs.
  induction Hks as [| k ks Hk _ IH]; intros [| c cs]; cbn [lincomb]; try reflexivity.
  rewrite total_vadd, total_vscale, Hk, IH. ring.
Qed.

Lemma lincomb_zero (cs : list Qc) (ks : list state) :
  Forall (fun k => k = vzero) ks -> lincomb cs ks = vzero.
Proof.
  intros Hks. revert cs.
  induction Hks as [| k ks Hk _ IH]; intros [| c cs]; cbn [lincomb]; try reflexivity.
  rewrite Hk, IH. unfold vadd, vscale, vzero. cbn [fst snd].
  f_equal; [f_equal |]; ring.
Qed.

Lemma vadd_vscale_zero (y : state) (h : Qc) : vadd y (vscale h vzero) = y.
Proof.
  destruct y as [[a b] c]. unfold vadd, vscale, vzero. cbn [fst snd].
  f_equal; [f_equal |]; ring.
Qed.

(** ** The integrator: what one step preserves, the whole run preserves *)

Section Integrator.

Variable m : tableau.
Variable f : state -> Qc -> result state.

(** If every slope computed from slopes in [P] is again in [P], all
    slopes of a step are computed, and they are in [P]. *)
Lemma rk_stages_inv (P : state -> Prop) (y : state) (t h : Qc) :
  (forall cs ks s, Forall P ks ->
     exists k, f (vadd y (vscale h (lincomb cs ks))) s = Ok k /\ P k) ->
  forall sts ks, Forall P ks ->
    exists ks', rk_stages f y t h sts ks = Ok ks' /\ Forall P ks'.
Proof using Type.
  intros Hf sts. induction sts as [| st sts IH]; intros ks Hks; cbn [rk_stages].
  - exists ks. split; [reflexivity | assumption].
  - destruct (Hf (coeffs st) ks (t + node st * h) Hks) as (k & Ek & Pk).
    rewrite Ek. cbn [Py.bind]. apply IH.
    apply Forall_app. split; [assumption | constructor; [assumption | constructor]].
Qed.

Lemma rk_step_inv (P Q : state -> Prop) (y : state) (t h : Qc) :
  (forall cs ks s, Forall P ks ->
     exists k, f (vadd y (vscale h (lincomb cs ks))) s = Ok k /\ P k) ->
  (forall ks, Forall P ks -> Q (vadd y (vscale h (lincomb (weights m) ks)))) ->
  exists y', rk_step m f y t h = Ok y' /\ Q y'.
Proof using Type.
  intros Hf HQ. unfold rk_step.
  destruct (rk_stages_inv P y t h Hf (stages m) []) as (ks & Eks & Pks);
    [constructor |].
  rewrite Eks. cbn [Py.bind]. eexists. split; [reflexivity | apply HQ, Pks].
Qed.

Lemma integrate_inv (Inv : state -> Prop) :
  (forall y t h, Inv y -> exists y', rk_step m f y t h = Ok y' /\ Inv y') ->
  forall ts y t, Inv y ->
    exists traj, integrate m f y t ts = Ok traj
                 /\ length traj = length ts /\ Forall Inv traj.
Proof using Type.
  intros Hstep ts. induction ts as [| t' ts IH]; intros y t Hy; cbn [integrate].
  - exists []. repeat split. constructor.
  - destruct (Hstep y t (t' - t) Hy) as (y' & Ey' & Hy').
    destruct (IH y' t' Hy') as (rest & Erest & Hlen & Hall).
    rewrite Ey'. cbn [Py.bind]. rewrite Erest. cbn [Py.bind].
    exists (y' :: rest). repeat split.
    + cbn [length]. now rewrite Hlen.
    + constructor; assumption.
Qed.

End Integrator.

(** The whole run, on a grid, from a state in [Inv]. *)
Lemma odeint_inv (m : tableau) (Inv : state -> Prop) (N beta gamma : Qc) :
  (forall y t h, Inv y ->
     exists y', rk_step m (fun y s => deriv y s N beta gamma) y t h = Ok y' /\ Inv y') ->
  forall y0 t, Inv y0 ->
    exists traj, odeint m deriv y0 t (N, beta, gamma) = Ok traj
                 /\ length traj = length t /\ Forall Inv traj.
Proof.
  intros Hstep y0 [| t0 ts] Hy0; cbn [odeint fst snd].
  - exists []. repeat split. constructor.
  - destruct (integrate_inv m _ Inv Hstep ts y0 t0 Hy0) as (rest & Erest & Hlen & Hall).
    rewrite Erest. cbn [Py.bind]. exists (y0 :: rest). repeat split.
    + cbn [length]. now rewrite Hlen.
    + constructor; assumption.
Qed.

(** ** The right-hand side under the integrator *)

Lemma deriv_total (y : state) (t N beta gamma : Qc) :
  N <> 0 -> exists k, deriv y t N beta gamma = Ok k /\ total k = 0.
Proof.
  intros HN. destruct y as [[S I] R]. eexists. split.
  - apply deriv_ok, HN.
  - unfold total. cbn [fst snd]. field. assumption.
Qed.

Lemma deriv_at_rest (S R t N beta gamma : Qc) :
  N <> 0 -> deriv (S, 0, R) t N beta gamma = Ok vzero.
Proof.
  intros HN. rewrite deriv_ok by assumption. unfold vzero.
  do 2 f_equal; [f_equal |]; field; assumption.
Qed.

(** A step keeps the head count. *)
Lemma rk_step_conserves (m : tableau) (N beta gamma n : Qc) :
  N <> 0 ->
  forall y t h, total y = n ->
    exists y', rk_step m (fun y s => deriv y s N beta gamma) y t h = Ok y'
               /\ total y' = n.
Proof.
  intros HN y t h Hy.
  apply (rk_step_inv m _ (fun k => total k = 0) (fun y' => total y' = n)).
  - intros cs ks s _. apply deriv_total, HN.
  - intros ks Hks. rewrite total_vadd, total_vscale, (total_lincomb _ _ Hks), Hy. ring.
Qed.

(** A step from a state without infected stays there. *)
Lemma rk_step_at_rest (m : tableau) (S R N beta gamma : Qc) :
  N <> 0 ->
  forall y t h, y = (S, 0, R) ->
    exists y', rk_step m (fun y s => deriv y s N beta gamma) y t h = Ok y'
               /\ y' = (S, 0, R).
Proof.
  intros HN y t h ->.
  apply (rk_step_inv m _ (fun k => k = vzero) (fun y' => y' = (S, 0, R))).
  - intros cs ks s Hks. exists vzero. split; [| reflexivity].
    rewrite (lincomb_zero _ _ Hks), vadd_vscale_zero. apply deriv_at_rest, HN.
  - intros ks Hks. rewrite (lincomb_zero _ _ Hks). apply vadd_vscale_zero.
Qed.

(** ** The notebook: what a run computes *)

(** Whatever the kernel held, the rows of [ret] are the integrator's
    result on the configuration's initial state, grid and rates. *)
Lemma trajectory_odeint (m : tableau) (c : config) (g : gmap string value) :
  trajectory m c g = odeint m deriv (initial_state c) (cfg_t c) (rate_args c).
Proof.
  unfold trajectory, notebook, cell_constants, cell_deriv, cell_y0, cell_integrate.
  unfold get_num, get_tuple, get_array, get_matrix, get_func.
  simplify_map_eq. cbn [Py.bind]. simplify_map_eq. cbn [Py.bind].
  fold (initial_state c). fold (rate_args c).
  destruct (odeint m deriv (initial_state c) (cfg_t c) (rate_args c)) as [traj | e];
    cbn [Py.bind]; [| reflexivity].
  simplify_map_eq. cbn [Py.bind]. simplify_map_eq. reflexivity.
Qed.

Lemma trajectory_total (m : tableau) (c : config) (g : gmap string value) :
  cfg_N c <> 0 ->
  exists traj, trajectory m c g = Ok traj
               /\ length traj = length (cfg_t c)
               /\ Forall (fun y => total y = cfg_N c) traj.
Proof.
  intros HN. rewrite trajectory_odeint. unfold rate_args.
  apply (odeint_inv m (fun y => total y = cfg_N c)).
  - intros y t h Hy. apply rk_step_conserves; assumption.
  - unfold total, initial_state. cbn [fst snd]. ring.
Qed.

Lemma valid_config_N_pos (c : config) : valid_config c = true -> 0 < cfg_N c.
Proof.
  unfold valid_config. rewrite !andb_true_iff, !bool_decide_eq_true. tauto.
Qed.

(** The arrays [S], [I], [R] are the columns of the integrator's result. *)
Lemma outputs_odeint (m : tableau) (c : config) (g : gmap string value) :
  outputs m c g
  = let* ret := odeint m deriv (initial_state c) (cfg_t c) (rate_args c) in
    Ok (map (fun y : state => y.1.1) ret,
        map (fun y : state => y.1.2) ret,
        map (fun y : state => y.2) ret).
Proof.
  unfold outputs, notebook, cell_constants, cell_deriv, cell_y0, cell_integrate.
  unfold get_num, get_tuple, get_array, get_matrix, get_func.
  simplify_map_eq. cbn [Py.bind]. simplify_map_eq. cbn [Py.bind].
  fold (initial_state c). fold (rate_args c).
  destruct (odeint m deriv (initial_state c) (cfg_t c) (rate_args c)) as [traj | e];
    cbn [Py.bind]; [| reflexivity].
  simplify_map_eq. cbn [Py.bind]. simplify_map_eq. reflexivity.
Qed.

(** Once a sample has no infected, every later sample equals it. *)
Lemma integrate_rest_at_rest (m : tableau) (S R N beta gamma : Qc) :
  N <> 0 ->
  forall ts y t traj (k j : nat),
    integrate m (fun y s => deriv y s N beta gamma) y t ts = Ok traj ->
    traj !! k = Some (S, 0, R) -> (k <= j)%nat -> (j < length traj)%nat ->
    traj !! j = Some (S, 0, R).
Proof.
  intros HN ts. induction ts as [| t' ts IH]; intros y t traj k j E Hk Hkj Hj.
  - cbn [integrate] in E. injection E as <-. discriminate Hk.
  - cbn [integrate] in E.
    destruct (rk_step m _ y t (t' - t)) as [y' | e] eqn:Ey'; cbn [Py.bind] in E;
      [| discriminate].
    destruct (integrate m _ y' t' ts) as [rest | e] eqn:Erest; cbn [Py.bind] in E;
      [| discriminate].
    injection E as <-.
    destruct k as [| k].
    + cbn in Hk. injection Hk as ->.
      destruct j as [| j]; [reflexivity |]. cbn [length] in Hj. cbn.
      destruct (integrate_inv m _ (fun y => y = (S, 0, R))
                  (fun y t h Hy => rk_step_at_rest m S R N beta gamma HN y t h Hy)
                  ts (S, 0, R) t' eq_refl) as (rest' & Erest' & _ & Hall).
      rewrite Erest in Erest'. injection Erest' as <-.
      destruct (lookup_lt_is_Some_2 rest j ltac:(lia)) as [z Hz].
      rewrite <- (proj1 (Forall_lookup _ _) Hall j z Hz). exact Hz.
    + destruct j as [| j]; [lia |]. cbn in Hk |- *. cbn [length] in Hj.
      eapply IH; [exact Erest | exact Hk | lia | lia].
Qed.

Lemma Forall_eq_const (y : state) (l : list state) (grid : list Qc) :
  Forall (fun z => z = y) l -> length l = length grid ->
  l = map (fun _ => y) grid.
Proof.
  intros Hall. revert grid.
  induction Hall as [| z l -> _ IH]; intros [| t grid] Hlen; cbn in Hlen |- *;
    try reflexivity; try discriminate.
  f_equal. apply IH. now injection Hlen.
Qed.

Lemma odeint_at_rest (m : tableau) (S R N beta gamma : Qc) (grid : list Qc) :
  N <> 0 ->
  odeint m deriv (S, 0, R) grid (N, beta, gamma) = Ok (map (fun _ => (S, 0, R)) grid).
Proof.
  intros HN.
  destruct (odeint_inv m (fun y => y = (S, 0, R)) N beta gamma
              (fun y t h Hy => rk_step_at_rest m S R N beta gamma HN y t h Hy)
              (S, 0, R) grid eq_refl) as (traj & E & Hlen & Hall).
  rewrite E. f_equal. apply Forall_eq_const; assumption.
Qed.

Lemma odeint_head (m : tableau) (y0 : state) (t0 : Qc) (ts : list Qc)
    (args : Qc * Qc * Qc) (traj : list state) :
  odeint m deriv y0 (t0 :: ts) args = Ok traj -> exists rest, traj = y0 :: rest.
Proof.
  cbn [odeint]. destruct (integrate m _ y0 t0 ts) as [rest | e]; cbn [Py.bind];
    intros E; [| discriminate].
  injection E as <-. now exists rest.
Qed.

(** ** The claims about the right-hand side *)

(** C2: for N ≠ 0, at every state and time, the three components that
    [deriv] returns sum to zero exactly:
    (−β·S·I/N) + (β·S·I/N − γ·I) + (γ·I) = 0. *)
Theorem deriv_components_sum_to_zero (S I R t N beta gamma : Qc) :
  N <> 0 ->
  exists dSdt dIdt dRdt,
    deriv (S, I, R) t N beta gamma = Ok (dSdt, dIdt, dRdt)
    /\ dSdt + dIdt + dRdt = 0.
Proof.
  intros HN. do 3 eexists. split.
  - apply deriv_ok, HN.
  - field. assumption.
Qed.

Lemma deriv_components_sum_to_zero_witness :
  exists dSdt dIdt dRdt,
    deriv (int_lit 999, int_lit 1, int_lit 0) (int_lit 7)
          (int_lit 1000) (float_lit 2 10) (float_lit 1 10)
    = Ok (dSdt, dIdt, dRdt)
    /\ dSdt + dIdt + dRdt = 0.
Proof.
  apply deriv_components_sum_to_zero. discriminate.
Defined.

(** C9: [deriv] reads neither its [t] argument nor the R component of the
    state: two calls that agree on S, I, N, beta and gamma return the same
    outcome, whatever their [t] and R. *)
Theorem deriv_ignores_t_and_R (S I R1 R2 t1 t2 N beta gamma : Qc) :
  deriv (S, I, R1) t1 N beta gamma = deriv (S, I, R2) t2 N beta gamma.
Proof.
  unfold deriv. cbn [fst snd]. reflexivity.
Qed.

(** C10: [deriv] divides by N unguarded, so it fails with a division by
    zero exactly when N = 0; for every input with N ≠ 0, and so for every
    N > 0, it returns a triple. *)
Theorem deriv_division_safe (y : state) (t N beta gamma : Qc) :
  (deriv y t N beta gamma = Err ZeroDivisionError <-> N = 0)
  /\ (N <> 0 -> exists d, deriv y t N beta gamma = Ok d)
  /\ (0 < N -> exists d, deriv y t N beta gamma = Ok d).
Proof.
  destruct y as [[S I] R].
  assert (Hok : N <> 0 -> exists d, deriv (S, I, R) t N beta gamma = Ok d).
  { intros HN. eexists. apply deriv_ok, HN. }
  split; [| split].
  - split.
    + intros E. destruct (Qc_eq_dec N 0) as [-> | HN]; [reflexivity |].
      destruct (Hok HN) as [d Ed]. rewrite Ed in E. discriminate.
    + intros ->. apply deriv_zero_N.
  - exact Hok.
  - intros HN. apply Hok, Qc_pos_nonzero, HN.
Qed.

Lemma deriv_division_safe_witness :
  deriv (int_lit 999, int_lit 1, int_lit 0) 0 (int_lit 0) (float_lit 2 10) (float_lit 1 10)
  = Err ZeroDivisionError
  /\ (exists d, deriv (int_lit 999, int_lit 1, int_lit 0) 0
                      (int_lit 1000) (float_lit 2 10) (float_lit 1 10) = Ok d)
  /\ (exists d, deriv (int_lit 999, int_lit 1, int_lit 0) 0
                      (int_lit (-1000)) (float_lit 2 10) (float_lit 1 10) = Ok d).
Proof.
  split; [| split].
  - apply (proj2 (proj1 (deriv_division_safe _ _ _ _ _))). reflexivity.
  - apply (proj2 (proj2 (deriv_division_safe _ _ _ _ _))). reflexivity.
  - apply (proj1 (proj2 (deriv_division_safe _ _ _ _ _))). discriminate.
Defined.

(** ** Signs of the right-hand side

    What [deriv] itself settles about monotonicity: on the non-negative
    orthant, S is not fed and R is not drained.  Whether the samples of a
    numerical integration stay in that orthant is a matter of the
    integrator's step control, not of [deriv]. *)

(** X13: with N > 0, non-negative rates and non-negative S and I, the S
    component that [deriv] returns is at most 0 and the R component at
    least 0. *)
Lemma deriv_signs (S I R t N beta gamma : Qc) :
  0 < N -> 0 <= beta -> 0 <= gamma -> 0 <= S -> 0 <= I ->
  exists dSdt dIdt dRdt,
    deriv (S, I, R) t N beta gamma = Ok (dSdt, dIdt, dRdt)
    /\ dSdt <= 0 /\ 0 <= dRdt.
Proof.
  intros HN Hb Hg HS HI. do 3 eexists. split; [| split].
  - apply deriv_ok, Qc_pos_nonzero, HN.
  - assert (Hx : 0 <= beta * S * I * / N).
    { repeat apply Qcmult_nonneg_nonneg; try assumption.
      apply Qclt_le_weak, Qcinv_pos, HN. }
    apply Qcopp_le_compat in Hx.
    replace (- beta * S * I / N) with (- (beta * S * I * / N))
      by (field; apply Qc_pos_nonzero, HN).
    exact Hx.
  - apply Qcmult_nonneg_nonneg; assumption.
Qed.

(** The orthant is not kept by a fixed step that is too long for the
    rates: forward Euler with a step of twenty days, twice the mean
    infectious period, overshoots I below zero and R above N, and R comes
    back down at the next sample.  Monotone samples are therefore a
    matter of the step sizes: see the section on monotone samples
    below. *)
Lemma coarse_euler_overshoots :
  valid_config coarse_grid_config = true
  /\ trajectory euler coarse_grid_config ∅
     = Ok [ (0, int_lit 1000, 0);
            (0, int_lit (-1000), int_lit 2000);
            (0, int_lit 1000, 0) ].
Proof.
  split; [reflexivity |].
  apply (bool_decide_unpack _). vm_compute. exact I.
Qed.

(** ** The claims about the integrated trajectory *)

(** C3: for every valid configuration (N > 0, beta > 0, gamma > 0,
    non-negative initial counts within the population, S0 = N − I0 − R0),
    the run returns a trajectory, and at every point t_i of the grid its
    sample satisfies S(t_i) + I(t_i) + R(t_i) = N, exactly, whatever the
    method of the family and whatever the kernel held before. *)
Theorem population_conserved (m : tableau) (c : config) (g : gmap string value) :
  valid_config c = true ->
  exists traj,
    trajectory m c g = Ok traj
    /\ forall (i : nat) (ti : Qc), cfg_t c !! i = Some ti ->
         exists y : state, traj !! i = Some y /\ y.1.1 + y.1.2 + y.2 = cfg_N c.
Proof.
  intros Hv.
  destruct (trajectory_total m c g (Qc_pos_nonzero _ (valid_config_N_pos c Hv)))
    as (traj & E & Hlen & Hall).
  exists traj. split; [exact E |].
  intros i ti Hi.
  destruct (lookup_lt_is_Some_2 traj i) as [y Hy].
  { rewrite Hlen. eapply lookup_lt_Some, Hi. }
  exists y. split; [exact Hy |].
  exact (proj1 (Forall_lookup _ _) Hall i y Hy).
Qed.

Lemma population_conserved_witness :
  valid_config notebook_config = true
  /\ exists traj,
       trajectory rk4 notebook_config ∅ = Ok traj
       /\ forall (i : nat) (ti : Qc), cfg_t notebook_config !! i = Some ti ->
            exists y : state, traj !! i = Some y
                              /\ y.1.1 + y.1.2 + y.2 = cfg_N notebook_config.
Proof.
  split; [reflexivity | apply population_conserved; reflexivity].
Defined.

(** C5: on a grid with a first point, the first sample of every run that
    returns is exactly (N − I0 − R0, I0, R0), and every run with N ≠ 0
    returns; for the constants of the source, whose grid starts at t = 0,
    the first sample is exactly (999, 1, 0). *)
Theorem initial_sample_exact (m : tableau) (g : gmap string value) :
  (forall (c : config) (t0 : Qc) (ts : list Qc),
     cfg_t c = t0 :: ts ->
     (forall traj, trajectory m c g = Ok traj ->
        traj !! 0%nat = Some (cfg_N c - cfg_I0 c - cfg_R0 c, cfg_I0 c, cfg_R0 c))
     /\ (cfg_N c <> 0 ->
         exists rest,
           trajectory m c g
           = Ok ((cfg_N c - cfg_I0 c - cfg_R0 c, cfg_I0 c, cfg_R0 c) :: rest)))
  /\ (cfg_t notebook_config !! 0%nat = Some 0
      /\ exists rest,
           trajectory m notebook_config g
           = Ok ((int_lit 999, int_lit 1, int_lit 0) :: rest)).
Proof.
  assert (Hhead : forall c t0 ts traj,
            cfg_t c = t0 :: ts -> trajectory m c g = Ok traj ->
            exists rest, traj = initial_state c :: rest).
  { intros c t0 ts traj Ht E. rewrite trajectory_odeint, Ht in E.
    eapply odeint_head, E. }
  assert (Hrun : forall c t0 ts,
            cfg_t c = t0 :: ts -> cfg_N c <> 0 ->
            exists rest, trajectory m c g = Ok (initial_state c :: rest)).
  { intros c t0 ts Ht HN.
    destruct (trajectory_total m c g HN) as (traj & E & _).
    destruct (Hhead c t0 ts traj Ht E) as [rest ->]. now exists rest. }
  split.
  - intros c t0 ts Ht. split.
    + intros traj E. destruct (Hhead c t0 ts traj Ht E) as [rest ->]. reflexivity.
    + intros HN. exact (Hrun c t0 ts Ht HN).
  - split; [reflexivity |].
    apply (Hrun notebook_config (int_lit 0) (tail (cfg_t notebook_config)));
      [reflexivity | discriminate].
Qed.

Lemma initial_sample_exact_witness :
  cfg_t notebook_config = int_lit 0 :: tail (cfg_t notebook_config)
  /\ cfg_N notebook_config <> 0
  /\ exists rest,
       trajectory rk4 notebook_config ∅
       = Ok ((cfg_N notebook_config - cfg_I0 notebook_config - cfg_R0 notebook_config,
              cfg_I0 notebook_config, cfg_R0 notebook_config) :: rest).
Proof.
  split; [reflexivity | split; [discriminate |]].
  apply (proj2 (proj1 (initial_sample_exact rk4 ∅)
                  notebook_config (int_lit 0) (tail (cfg_t notebook_config)) eq_refl)).
  discriminate.
Defined.

(** C7: for N ≠ 0, at every state with I = 0 and at every time, [deriv]
    returns (0, 0, 0); the integration started at such a state samples
    that same state at every grid point, and in any run, once a sample has
    I = 0, all later samples equal it. *)
Theorem no_infected_is_stationary (S R N beta gamma : Qc) :
  N <> 0 ->
  (forall t, deriv (S, 0, R) t N beta gamma = Ok (0, 0, 0))
  /\ (forall (m : tableau) (grid : list Qc),
        odeint m deriv (S, 0, R) grid (N, beta, gamma)
        = Ok (map (fun _ => (S, 0, R)) grid))
  /\ (forall (m : tableau) (y0 : state) (grid : list Qc) (traj : list state)
             (k j : nat),
        odeint m deriv y0 grid (N, beta, gamma) = Ok traj ->
        traj !! k = Some (S, 0, R) -> (k <= j)%nat -> (j < length traj)%nat ->
        traj !! j = Some (S, 0, R)).
Proof.
  intros HN. split; [| split].
  - intros t. apply deriv_at_rest, HN.
  - intros m grid. apply odeint_at_rest, HN.
  - intros m y0 [| t0 ts] traj k j E Hk Hkj Hj.
    + cbn [odeint] in E. injection E as <-. discriminate Hk.
    + destruct k as [| k].
      * destruct (odeint_head m y0 t0 ts _ traj E) as [rest ->].
        cbn in Hk. injection Hk as ->.
        rewrite odeint_at_rest in E by assumption. injection E as E.
        rewrite <- E. rewrite <- E in Hj. cbn [length] in Hj. rewrite length_map in Hj.
        change ((S, 0, R) :: map (fun _ => (S, 0, R)) ts)
          with (map (fun _ : Qc => (S, 0, R)) (t0 :: ts)).
        rewrite list_lookup_fmap.
        destruct (lookup_lt_is_Some_2 (t0 :: ts) j) as [tj ->];
          [cbn [length]; lia | reflexivity].
      * cbn [odeint fst snd] in E.
        destruct (integrate m _ y0 t0 ts) as [rest | e] eqn:Erest; cbn [Py.bind] in E;
          [| discriminate].
        injection E as <-.
        destruct j as [| j]; [lia |]. cbn in Hk |- *. cbn [length] in Hj.
        eapply integrate_rest_at_rest; [exact HN | exact Erest | exact Hk | lia | lia].
Qed.

Lemma no_infected_is_stationary_witness :
  deriv (int_lit 600, 0, int_lit 400) (int_lit 3)
        (int_lit 1000) (float_lit 2 10) (float_lit 1 10) = Ok (0, 0, 0)
  /\ odeint rk4 deriv (int_lit 600, 0, int_lit 400)
            [int_lit 0; int_lit 1; int_lit 2]
            (int_lit 1000, float_lit 2 10, float_lit 1 10)
     = Ok (map (fun _ => (int_lit 600, 0, int_lit 400))
               [int_lit 0; int_lit 1; int_lit 2]).
Proof.
  assert (HN : int_lit 1000 <> 0) by discriminate.
  split.
  - apply (proj1 (no_infected_is_stationary (int_lit 600) (int_lit 400)
                    (int_lit 1000) (float_lit 2 10) (float_lit 1 10) HN)).
  - apply (proj1 (proj2 (no_infected_is_stationary (int_lit 600) (int_lit 400)
                           (int_lit 1000) (float_lit 2 10) (float_lit 1 10) HN))).
Defined.

(** ** The claim about input validation *)

(** C4, as the specification states it, fails: a configuration with a
    negative contact rate is invalid, yet no run rejects it: whatever the
    method and whatever the kernel held, the run returns a sample for
    each of the two grid points, the first being the initial state. *)
Lemma invalid_input_is_integrated :
  valid_config negative_rate_config = false
  /\ forall (m : tableau) (g : gmap string value),
       exists y1 : state,
         trajectory m negative_rate_config g
         = Ok [ (int_lit 999, int_lit 1, int_lit 0); y1 ].
Proof.
  split; [reflexivity |]. intros m g.
  destruct (trajectory_total m negative_rate_config g) as (traj & E & Hlen & _);
    [discriminate |].
  rewrite trajectory_odeint in E |- *.
  destruct (odeint_head m (initial_state negative_rate_config) (int_lit 0)
              [int_lit 1] (rate_args negative_rate_config) traj E) as [rest ->].
  destruct rest as [| y1 [| y2 rest]]; try discriminate Hlen.
  exists y1. exact E.
Qed.

(** C4, amended: the notebook validates nothing.  For every
    configuration, valid or not, the outcome of a run is the outcome of
    the integrator on the initial state (N − I0 − R0, I0, R0), the grid
    and the arguments (N, beta, gamma): no check stands between the
    constants and the integration.  The constants of the source are a
    valid configuration. *)
Theorem no_validation_before_integration (m : tableau) (c : config)
    (g : gmap string value) :
  trajectory m c g = odeint m deriv (initial_state c) (cfg_t c) (rate_args c)
  /\ valid_config notebook_config = true.
Proof.
  split; [apply trajectory_odeint | reflexivity].
Qed.

(** * Further properties of the code *)

(** ** The right-hand side *)

Lemma deriv_signs_witness :
  exists dSdt dIdt dRdt,
    deriv (int_lit 999, int_lit 1, int_lit 0) 0
          (int_lit 1000) (float_lit 2 10) (float_lit 1 10)
    = Ok (dSdt, dIdt, dRdt)
    /\ dSdt <= 0 /\ 0 <= dRdt.
Proof.
  apply deriv_signs; vm_compute; first [reflexivity | discriminate].
Defined.

Lemma deriv_vscale (k : Qc) (y : state) (t N beta gamma : Qc) :
  k <> 0 ->
  deriv (vscale k y) t (k * N) beta gamma
  = result_map (vscale k) (deriv y t N beta gamma).
Proof.
  intros Hk. destruct y as [[S I] R]. unfold vscale at 1. cbn [fst snd].
  destruct (Qc_eq_dec N 0) as [-> | HN].
  - rewrite Qcmult_0_r, !deriv_zero_N. reflexivity.
  - assert (HkN : k * N <> 0).
    { intros E. apply Qcmult_integral in E. tauto. }
    rewrite !deriv_ok by assumption. unfold result_map, vscale. cbn [Py.bind fst snd].
    do 2 f_equal; [f_equal |]; field; tauto.
Qed.

(** X1: in exact arithmetic (rounding is not modelled; on floats the
    two sides agree up to rounding only), [deriv] does not depend on the
    unit in which people are counted: multiplying the three compartments and N by the same non-zero factor
    multiplies the returned triple by that factor (and a failure stays a
    failure). *)
Theorem deriv_scales (k S I R t N beta gamma : Qc) :
  k <> 0 ->
  deriv (k * S, k * I, k * R) t (k * N) beta gamma
  = result_map (vscale k) (deriv (S, I, R) t N beta gamma).
Proof.
  intros Hk. exact (deriv_vscale k (S, I, R) t N beta gamma Hk).
Qed.

Lemma deriv_scales_witness :
  deriv (float_lit 1 1000 * int_lit 999, float_lit 1 1000 * int_lit 1,
         float_lit 1 1000 * int_lit 0) 0
        (float_lit 1 1000 * int_lit 1000) (float_lit 2 10) (float_lit 1 10)
  = result_map (vscale (float_lit 1 1000))
      (deriv (int_lit 999, int_lit 1, int_lit 0) 0
             (int_lit 1000) (float_lit 2 10) (float_lit 1 10)).
Proof.
  apply deriv_scales. discriminate.
Defined.

Lemma Qc_pos_mult_iff (a z : Qc) : 0 < z -> (0 < a * z <-> 0 < a).
Proof.
  intros Hz. rewrite (Qcmult_lt_mono_pos_r 0 a z Hz), Qcmult_0_l. reflexivity.
Qed.

(** X2: the epidemic threshold, in exact arithmetic (rounding is not
    modelled; on floats the three cases can be off by rounding when
    beta * S and gamma * N are equal or nearly so).  With N > 0 and I > 0 the infected
    component of [deriv] is positive exactly when beta * S > gamma * N,
    negative exactly when beta * S < gamma * N, and zero exactly when
    the two are equal. *)
Theorem infection_threshold (S I R t N beta gamma : Qc) :
  0 < N -> 0 < I ->
  exists dSdt dIdt dRdt,
    deriv (S, I, R) t N beta gamma = Ok (dSdt, dIdt, dRdt)
    /\ (0 < dIdt <-> gamma * N < beta * S)
    /\ (dIdt < 0 <-> beta * S < gamma * N)
    /\ (dIdt = 0 <-> beta * S = gamma * N).
Proof.
  intros HN HI.
  assert (HN0 : N <> 0) by (apply Qc_pos_nonzero, HN).
  assert (Hq : 0 < I * / N) by (apply Qcmult_pos_pos; [| apply Qcinv_pos]; assumption).
  assert (E : beta * S * I / N - gamma * I = (beta * S + - (gamma * N)) * (I * / N))
    by (field; assumption).
  assert (E' : gamma * I - beta * S * I / N = (gamma * N + - (beta * S)) * (I * / N))
    by (field; assumption).
  do 3 eexists. split; [apply deriv_ok, HN0 | split; [| split]].
  - rewrite E, (Qc_pos_mult_iff _ _ Hq). symmetry. apply Qclt_minus_iff.
  - rewrite (Qclt_minus_iff (beta * S * I / N - gamma * I)).
    replace (0 + - (beta * S * I / N - gamma * I))
      with ((gamma * N + - (beta * S)) * (I * / N)) by (rewrite <- E'; ring).
    rewrite (Qc_pos_mult_iff _ _ Hq). symmetry. apply Qclt_minus_iff.
  - rewrite E. split.
    + intros Z. apply Qcmult_integral in Z. destruct Z as [Z | Z].
      * rewrite <- (Qcplus_0_r (gamma * N)), <- Z. ring.
      * apply Qc_pos_nonzero in Hq. contradiction.
    + intros ->. ring.
Qed.

Lemma infection_threshold_witness :
  exists dSdt dIdt dRdt,
    deriv (int_lit 999, int_lit 1, int_lit 0) 0
          (int_lit 1000) (float_lit 2 10) (float_lit 1 10)
    = Ok (dSdt, dIdt, dRdt)
    /\ (0 < dIdt <-> float_lit 1 10 * int_lit 1000 < float_lit 2 10 * int_lit 999)
    /\ (dIdt < 0 <-> float_lit 2 10 * int_lit 999 < float_lit 1 10 * int_lit 1000)
    /\ (dIdt = 0 <-> float_lit 2 10 * int_lit 999 = float_lit 1 10 * int_lit 1000).
Proof.
  apply infection_threshold; reflexivity.
Defined.

(** ** The cells and the kernel *)

Ltac unfold_cells :=
  unfold notebook, cell_constants, cell_deriv, cell_y0, cell_integrate, cell_plot,
    get_num, get_tuple, get_array, get_matrix, get_func.

(** Reading a name through a stack of assignments to literal names. *)
Ltac lookup_step :=
  first [ rewrite lookup_insert_eq | rewrite lookup_insert_ne by discriminate ].

Ltac run_cells :=
  repeat first [ progress (repeat lookup_step) | progress cbn [Py.bind] ].

(** A run either fails in the integrator or leaves [kernel_after]. *)
Lemma notebook_kernel_after (m : tableau) (c : config) (g : gmap string value) :
  notebook m c g
  = let* ret := odeint m deriv (initial_state c) (cfg_t c) (rate_args c) in
    Ok (kernel_after c ret g).
Proof.
  unfold_cells.
  simplify_map_eq. cbn [Py.bind]. simplify_map_eq. cbn [Py.bind].
  fold (initial_state c). fold (rate_args c).
  destruct (odeint m deriv (initial_state c) (cfg_t c) (rate_args c)) as [ret | e];
    cbn [Py.bind]; [| reflexivity].
  simplify_map_eq. reflexivity.
Qed.

Lemma kernel_after_frame (c : config) (ret : list state) (g : gmap string value)
    (x : string) :
  x ∉ notebook_names -> kernel_after c ret g !! x = g !! x.
Proof.
  unfold notebook_names. rewrite !not_elem_of_cons. intros H.
  unfold kernel_after. rewrite !lookup_insert_ne by (intros <-; tauto). reflexivity.
Qed.

Lemma kernel_after_twice (c : config) (ret : list state) (g : gmap string value) :
  kernel_after c ret (kernel_after c ret g) = kernel_after c ret g.
Proof.
  apply map_eq. intros x.
  destruct (decide (x ∈ notebook_names)) as [Hin | Hnot].
  - unfold notebook_names in Hin.
    repeat (apply elem_of_cons in Hin as [-> | Hin]);
      try (by apply elem_of_nil in Hin);
      unfold kernel_after; by simplify_map_eq.
  - rewrite !kernel_after_frame by assumption. reflexivity.
Qed.

(** X3: a run never touches a name other than the thirteen its cells
    assign: whatever else the kernel held is still bound to the same
    value afterwards. *)
Theorem notebook_touches_only_its_names (m : tableau) (c : config)
    (g : gmap string value) (x : string) :
  x ∉ notebook_names ->
  result_map (fun g' : gmap string value => g' !! x) (notebook m c g)
  = result_map (fun _ => g !! x) (notebook m c g).
Proof.
  intros Hx. rewrite notebook_kernel_after. unfold result_map.
  destruct (odeint m deriv (initial_state c) (cfg_t c) (rate_args c)) as [ret | e];
    cbn [Py.bind]; [| reflexivity].
  f_equal. apply kernel_after_frame, Hx.
Qed.

Lemma notebook_touches_only_its_names_witness :
  result_map (fun g' : gmap string value => g' !! "fig")
             (notebook euler three_day_config {["fig" := VNum 1]})
  = result_map (fun _ => ({["fig" := VNum 1]} : gmap string value) !! "fig")
               (notebook euler three_day_config {["fig" := VNum 1]}).
Proof.
  apply notebook_touches_only_its_names.
  unfold notebook_names. rewrite !not_elem_of_cons. repeat split; try discriminate.
  apply not_elem_of_nil.
Defined.

(** X4: running the notebook again on the kernel it left changes
    nothing: the second run ends in the very same kernel (or fails as
    the first did). *)
Theorem notebook_rerun_is_idempotent (m : tableau) (c : config) (g : gmap string value) :
  (let* g' := notebook m c g in notebook m c g') = notebook m c g.
Proof.
  rewrite notebook_kernel_after.
  destruct (odeint m deriv (initial_state c) (cfg_t c) (rate_args c)) as [ret | e] eqn:E;
    cbn [Py.bind]; [| reflexivity].
  rewrite notebook_kernel_after, E. cbn [Py.bind]. f_equal. apply kernel_after_twice.
Qed.

(** X6: the integration cell takes its initial state from the name
    [y0], not from the constants.  After a run with [c1], changing the
    constants to [c2] and running the integration cell without the [y0]
    cell integrates from the initial state of [c1] with the rates, the
    population and the grid of [c2]; when both populations are non-zero
    every sample then adds up to the population of [c1], not of [c2]. *)
Theorem stale_initial_state (m : tableau) (c1 c2 : config) (g : gmap string value) :
  (let* g1 := notebook m c1 g in
   let* g2 := cell_constants c2 g1 in
   let* g3 := cell_integrate m g2 in
   get_matrix g3 "ret")
  = (let* _ := odeint m deriv (initial_state c1) (cfg_t c1) (rate_args c1) in
     odeint m deriv (initial_state c1) (cfg_t c2) (rate_args c2))
  /\ (cfg_N c1 <> 0 -> cfg_N c2 <> 0 ->
      exists traj,
        (let* g1 := notebook m c1 g in
         let* g2 := cell_constants c2 g1 in
         let* g3 := cell_integrate m g2 in
         get_matrix g3 "ret") = Ok traj
        /\ length traj = length (cfg_t c2)
        /\ Forall (fun y => total y = cfg_N c1) traj).
Proof.
  assert (E : (let* g1 := notebook m c1 g in
               let* g2 := cell_constants c2 g1 in
               let* g3 := cell_integrate m g2 in
               get_matrix g3 "ret")
              = (let* _ := odeint m deriv (initial_state c1) (cfg_t c1) (rate_args c1) in
                 odeint m deriv (initial_state c1) (cfg_t c2) (rate_args c2))).
  { rewrite notebook_kernel_after.
    destruct (odeint m deriv (initial_state c1) (cfg_t c1) (rate_args c1)) as [r1 | e];
      cbn [Py.bind]; [| reflexivity].
    unfold kernel_after. unfold_cells. run_cells.
    fold (rate_args c2).
    destruct (odeint m deriv (initial_state c1) (cfg_t c2) (rate_args c2)) as [r2 | e];
      cbn [Py.bind]; [| reflexivity].
    run_cells. reflexivity. }
  split; [exact E |].
  intros HN1 HN2. rewrite E.
  destruct (trajectory_total m c1 g HN1) as (r1 & E1 & _).
  rewrite trajectory_odeint in E1. rewrite E1. cbn [Py.bind]. unfold rate_args.
  apply (odeint_inv m (fun y => total y = cfg_N c1)).
  - intros y t h Hy. apply rk_step_conserves; assumption.
  - unfold total, initial_state. cbn [fst snd]. ring.
Qed.

Lemma stale_initial_state_witness :
  exists traj,
    (let* g1 := notebook euler three_day_config ∅ in
     let* g2 := cell_constants doubled_config g1 in
     let* g3 := cell_integrate euler g2 in
     get_matrix g3 "ret") = Ok traj
    /\ length traj = length (cfg_t doubled_config)
    /\ Forall (fun y => total y = cfg_N three_day_config) traj.
Proof.
  apply (proj2 (stale_initial_state euler three_day_config doubled_config ∅));
    discriminate.
Defined.

(** ** The output arrays *)

(** X7: [S, I, R = ret.T] splits the rows without loss.  When N ≠ 0 a run
    binds three arrays with one entry per grid point, and row [i] of
    [ret] is [y] exactly when [S[i]], [I[i]] and [R[i]] are the three
    components of [y]. *)
Theorem outputs_are_the_columns (m : tableau) (c : config) (g : gmap string value) :
  cfg_N c <> 0 ->
  exists (traj : list state) (S I R : list Qc),
    trajectory m c g = Ok traj
    /\ outputs m c g = Ok (S, I, R)
    /\ length S = length (cfg_t c)
    /\ length I = length (cfg_t c)
    /\ length R = length (cfg_t c)
    /\ forall (i : nat) (y : state),
         traj !! i = Some y
         <-> S !! i = Some y.1.1 /\ I !! i = Some y.1.2 /\ R !! i = Some y.2.
Proof.
  intros HN. destruct (trajectory_total m c g HN) as (traj & E & Hlen & _).
  exists traj, (map (fun y : state => y.1.1) traj),
    (map (fun y : state => y.1.2) traj), (map (fun y : state => y.2) traj).
  split; [exact E |]. rewrite trajectory_odeint in E.
  split; [rewrite outputs_odeint, E; reflexivity |].
  rewrite !length_map. repeat split; try exact Hlen.
  - rewrite list_lookup_fmap, H. reflexivity.
  - rewrite list_lookup_fmap, H. reflexivity.
  - rewrite list_lookup_fmap, H. reflexivity.
  - rewrite !list_lookup_fmap. destruct (traj !! i) as [[[a b] d] |]; cbn.
    + destruct y as [[a' b'] d']. cbn. intros (Ha & Hb & Hd). congruence.
    + intros (Ha & _). discriminate.
Qed.

Lemma outputs_are_the_columns_witness :
  exists (traj : list state) (S I R : list Qc),
    trajectory rk4 three_day_config ∅ = Ok traj
    /\ outputs rk4 three_day_config ∅ = Ok (S, I, R)
    /\ length S = length (cfg_t three_day_config)
    /\ length I = length (cfg_t three_day_config)
    /\ length R = length (cfg_t three_day_config)
    /\ forall (i : nat) (y : state),
         traj !! i = Some y
         <-> S !! i = Some y.1.1 /\ I !! i = Some y.1.2 /\ R !! i = Some y.2.
Proof.
  apply outputs_are_the_columns. discriminate.
Defined.

(** ** Equalities of states *)

Lemma state_ext (a b d a' b' d' : Qc) :
  a = a' -> b = b' -> d = d' -> (a, b, d) = (a', b', d').
Proof. intros -> -> ->. reflexivity. Qed.

Ltac state_ring :=
  unfold vadd, vscale, vzero; cbn [fst snd]; apply state_ext; ring.

(** ** The plot *)

Lemma array_div_ok (a : list Qc) (d : Qc) :
  d <> 0 -> array_div a d = Ok (map (fun x => x / d) a).
Proof.
  intros Hd. induction a as [| x a IH]; cbn [array_div map]; [reflexivity |].
  rewrite py_div_ok by assumption. cbn [Py.bind]. rewrite IH. reflexivity.
Qed.

Lemma plot_after_run (c : config) (ret : list state) (g : gmap string value) :
  cell_plot (kernel_after c ret g)
  = Ok [ Curve (cfg_t c) (map (fun y : state => y.1.1 / int_lit 1000) ret) "Susceptible";
         Curve (cfg_t c) (map (fun y : state => y.1.2 / int_lit 1000) ret) "Infected";
         Curve (cfg_t c) (map (fun y : state => y.2 / int_lit 1000) ret)
               "Recovered with immunity" ].
Proof.
  unfold kernel_after. unfold_cells. run_cells.
  rewrite !array_div_ok by discriminate. run_cells. rewrite !map_map. reflexivity.
Qed.

(** X10: the three plotted curves add up to N / 1000 at every grid point
    (to 1 for the population of the source); the divisor is the literal
    1000 whatever N is.  Each curve has one value per grid point. *)
Theorem plotted_curves_add_up (m : tableau) (c : config) (g : gmap string value) :
  cfg_N c <> 0 ->
  exists ys yi yr : list Qc,
    (let* g' := notebook m c g in cell_plot g')
    = Ok [ Curve (cfg_t c) ys "Susceptible";
           Curve (cfg_t c) yi "Infected";
           Curve (cfg_t c) yr "Recovered with immunity" ]
    /\ forall (i : nat) (ti : Qc), cfg_t c !! i = Some ti ->
         exists a b d : Qc,
           ys !! i = Some a /\ yi !! i = Some b /\ yr !! i = Some d
           /\ a + b + d = cfg_N c / int_lit 1000.
Proof.
  intros HN. destruct (trajectory_total m c g HN) as (traj & E & Hlen & Hall).
  rewrite trajectory_odeint in E.
  do 3 eexists. split.
  - rewrite notebook_kernel_after, E. cbn [Py.bind]. apply plot_after_run.
  - intros i ti Hi.
    destruct (lookup_lt_is_Some_2 traj i) as [y Hy].
    { rewrite Hlen. eapply lookup_lt_Some, Hi. }
    pose proof (proj1 (Forall_lookup _ _) Hall i y Hy) as Hy'. cbn beta in Hy'.
    exists (y.1.1 / int_lit 1000), (y.1.2 / int_lit 1000), (y.2 / int_lit 1000).
    rewrite !list_lookup_fmap, Hy. cbn. repeat split.
    rewrite <- Hy'. unfold total. field. discriminate.
Qed.

Lemma plotted_curves_add_up_witness :
  exists ys yi yr : list Qc,
    (let* g' := notebook rk4 three_day_config ∅ in cell_plot g')
    = Ok [ Curve (cfg_t three_day_config) ys "Susceptible";
           Curve (cfg_t three_day_config) yi "Infected";
           Curve (cfg_t three_day_config) yr "Recovered with immunity" ]
    /\ forall (i : nat) (ti : Qc), cfg_t three_day_config !! i = Some ti ->
         exists a b d : Qc,
           ys !! i = Some a /\ yi !! i = Some b /\ yr !! i = Some d
           /\ a + b + d = cfg_N three_day_config / int_lit 1000.
Proof.
  apply plotted_curves_add_up. discriminate.
Defined.

(** ** Edge cases of the integration *)

Lemma deriv_returns (y : state) (t N beta gamma : Qc) :
  N <> 0 -> exists k, deriv y t N beta gamma = Ok k /\ True.
Proof.
  intros HN. destruct (deriv_total y t N beta gamma HN) as (k & E & _). now exists k.
Qed.

(** A step of length zero goes nowhere. *)
Lemma rk_step_zero (m : tableau) (N beta gamma : Qc) (y : state) (t : Qc) :
  N <> 0 -> rk_step m (fun y s => deriv y s N beta gamma) y t 0 = Ok y.
Proof.
  intros HN.
  destruct (rk_step_inv m (fun y s => deriv y s N beta gamma)
              (fun _ => True) (fun y' => y' = y) y t 0) as (y' & E & ->).
  - intros cs ks s _. apply deriv_returns, HN.
  - intros ks _. destruct y as [[a b] d].
    destruct (lincomb (weights m) ks) as [[l1 l2] l3]. state_ring.
  - exact E.
Qed.

Lemma integrate_repeated (m : tableau) (N beta gamma : Qc) (pre : list Qc)
    (a : Qc) (post : list Qc) (y : state) (t : Qc) :
  N <> 0 ->
  integrate m (fun y s => deriv y s N beta gamma) y t (pre ++ a :: a :: post)
  = result_map (fun traj => take (S (length pre)) traj ++ drop (length pre) traj)
      (integrate m (fun y s => deriv y s N beta gamma) y t (pre ++ a :: post)).
Proof.
  intros HN. revert y t. induction pre as [| p pre IH]; intros y t;
    cbn [app integrate length].
  - destruct (rk_step m _ y t (a - t)) as [y' | e]; cbn [Py.bind]; [| reflexivity].
    replace (a - a) with 0 by ring. rewrite rk_step_zero by assumption. cbn [Py.bind].
    destruct (integrate m _ y' a post) as [rest | e]; reflexivity.
  - destruct (rk_step m _ y t (p - t)) as [y' | e]; cbn [Py.bind]; [| reflexivity].
    rewrite IH. unfold result_map.
    destruct (integrate m _ y' p (pre ++ a :: post)) as [rest | e]; reflexivity.
Qed.

(** X11: a time that occurs twice in a row in the grid is sampled twice
    with the same state, and the other samples are those of the grid
    without the repetition (N ≠ 0; the integrator is the modelled one,
    any method of the family). *)
Theorem repeated_time_repeats_sample (m : tableau) (N beta gamma : Qc) (y0 : state)
    (pre : list Qc) (a : Qc) (post : list Qc) :
  N <> 0 ->
  odeint m deriv y0 (pre ++ a :: a :: post) (N, beta, gamma)
  = result_map (fun traj => take (S (length pre)) traj ++ drop (length pre) traj)
      (odeint m deriv y0 (pre ++ a :: post) (N, beta, gamma)).
Proof.
  intros HN. destruct pre as [| p pre]; cbn [app odeint length fst snd].
  - cbn [integrate]. replace (a - a) with 0 by ring.
    rewrite rk_step_zero by assumption. cbn [Py.bind]. unfold result_map.
    destruct (integrate m _ y0 a post) as [rest | e]; reflexivity.
  - rewrite integrate_repeated by assumption. unfold result_map.
    destruct (integrate m _ y0 p (pre ++ a :: post)) as [rest | e]; reflexivity.
Qed.

Lemma repeated_time_repeats_sample_witness :
  odeint rk4 deriv (int_lit 999, int_lit 1, int_lit 0)
         ([int_lit 0] ++ int_lit 1 :: int_lit 1 :: [int_lit 2])
         (int_lit 1000, float_lit 2 10, float_lit 1 10)
  = result_map (fun traj => take 2 traj ++ drop 1 traj)
      (odeint rk4 deriv (int_lit 999, int_lit 1, int_lit 0)
              ([int_lit 0] ++ int_lit 1 :: [int_lit 2])
              (int_lit 1000, float_lit 2 10, float_lit 1 10)).
Proof.
  apply (repeated_time_repeats_sample rk4 (int_lit 1000) (float_lit 2 10) (float_lit 1 10)
           (int_lit 999, int_lit 1, int_lit 0) [int_lit 0] (int_lit 1) [int_lit 2]).
  discriminate.
Defined.

(** Components that the slopes leave alone are kept by a step. *)
Section Component.

Variable phi : state -> Qc.
Hypothesis phi_vadd : forall a b, phi (vadd a b) = phi a + phi b.
Hypothesis phi_vscale : forall h a, phi (vscale h a) = h * phi a.

Lemma phi_vzero : phi vzero = 0.
Proof using phi_vscale.
  replace vzero with (vscale 0 vzero) by state_ring. rewrite phi_vscale. ring.
Qed.

Lemma phi_lincomb (cs : list Qc) (ks : list state) :
  Forall (fun k => phi k = 0) ks -> phi (lincomb cs ks) = 0.
Proof using phi_vadd phi_vscale.
  intros Hks. revert cs.
  induction Hks as [| k ks Hk _ IH]; intros [| c cs]; cbn [lincomb];
    try apply phi_vzero.
  rewrite phi_vadd, phi_vscale, Hk, IH. ring.
Qed.

Lemma phi_stage_arg (y : state) (h : Qc) (cs : list Qc) (ks : list state) :
  Forall (fun k => phi k = 0) ks -> phi (vadd y (vscale h (lincomb cs ks))) = phi y.
Proof using phi_vadd phi_vscale.
  intros Hks. rewrite phi_vadd, phi_vscale, (phi_lincomb _ _ Hks). ring.
Qed.

Lemma odeint_keeps_component (m : tableau) (N beta gamma v : Qc) :
  (forall y s, phi y = v ->
     exists k, deriv y s N beta gamma = Ok k /\ phi k = 0) ->
  forall y0 grid, phi y0 = v ->
    exists traj, odeint m deriv y0 grid (N, beta, gamma) = Ok traj
                 /\ length traj = length grid
                 /\ Forall (fun y => phi y = v) traj.
Proof using phi_vadd phi_vscale.
  intros Hf. apply (odeint_inv m (fun y => phi y = v)).
  intros y t h Hy.
  apply (rk_step_inv m _ (fun k => phi k = 0) (fun y' => phi y' = v)).
  - intros cs ks s Hks. apply Hf. rewrite (phi_stage_arg _ _ _ _ Hks). exact Hy.
  - intros ks Hks. rewrite (phi_stage_arg _ _ _ _ Hks). exact Hy.
Qed.

End Component.

(** X12: a compartment without flow stays where it is, at every sample
    and for every method of the family (the integrator is the modelled
    one).  With N ≠ 0 the run returns one sample per grid point; if
    beta = 0, or if nobody is susceptible at the start, S keeps its
    initial value; if gamma = 0, R keeps its initial value. *)
Theorem compartment_without_flow_is_constant (m : tableau) (N beta gamma : Qc)
    (y0 : state) (grid : list Qc) :
  N <> 0 ->
  exists traj,
    odeint m deriv y0 grid (N, beta, gamma) = Ok traj
    /\ length traj = length grid
    /\ (beta = 0 \/ y0.1.1 = 0 -> Forall (fun y : state => y.1.1 = y0.1.1) traj)
    /\ (gamma = 0 -> Forall (fun y : state => y.2 = y0.2) traj).
Proof.
  intros HN.
  destruct (odeint_inv m (fun _ => True) N beta gamma) with (y0 := y0) (t := grid)
    as (traj & E & Hlen & _).
  { intros y t h _.
    apply (rk_step_inv m _ (fun _ => True) (fun _ => True)); [| trivial].
    intros cs ks s _. apply deriv_returns, HN. }
  { exact I. }
  exists traj. split; [exact E |]. split; [exact Hlen |]. split.
  - intros Hflow.
    destruct (odeint_keeps_component (fun y : state => y.1.1)) with
      (m := m) (N := N) (beta := beta) (gamma := gamma) (v := y0.1.1)
      (y0 := y0) (grid := grid) as (traj' & E' & _ & Hall);
      try reflexivity.
    + intros [[S I] R] s HS. cbn [fst snd] in HS.
      eexists. split; [apply deriv_ok, HN |]. cbn [fst snd].
      destruct Hflow as [-> | H0]; [| rewrite HS, H0]; field; exact HN.
    + rewrite E in E'. injection E' as <-. exact Hall.
  - intros ->.
    destruct (odeint_keeps_component (fun y : state => y.2)) with
      (m := m) (N := N) (beta := beta) (gamma := 0) (v := y0.2)
      (y0 := y0) (grid := grid) as (traj' & E' & _ & Hall);
      try reflexivity.
    + intros [[S I] R] s _.
      eexists. split; [apply deriv_ok, HN |]. cbn [fst snd]. ring.
    + rewrite E in E'. injection E' as <-. exact Hall.
Qed.

Lemma compartment_without_flow_is_constant_witness :
  exists traj,
    odeint rk4 deriv (0, int_lit 1000, 0) [int_lit 0; int_lit 1; int_lit 2]
           (int_lit 1000, float_lit 2 10, 0) = Ok traj
    /\ length traj = length [int_lit 0; int_lit 1; int_lit 2]
    /\ Forall (fun y : state => y.1.1 = 0) traj
    /\ Forall (fun y : state => y.2 = 0) traj.
Proof.
  destruct (compartment_without_flow_is_constant rk4 (int_lit 1000) (float_lit 2 10) 0
              (0, int_lit 1000, 0) [int_lit 0; int_lit 1; int_lit 2])
    as (traj & E & Hlen & HS & HR); [discriminate |].
  exists traj. split; [exact E |]. split; [exact Hlen |]. split.
  - apply HS. right. reflexivity.
  - apply HR. reflexivity.
Defined.

(** ** Monotone samples *)

(** What the two predicates say, entry by entry. *)
Lemma nonincreasing_lookup (l : list Qc) :
  nonincreasing l = true
  <-> forall (i : nat) (a b : Qc), l !! i = Some a -> l !! S i = Some b -> b <= a.
Proof.
  induction l as [| a l IH]; cbn [nonincreasing].
  - split; [intros _ i a b H; discriminate H | reflexivity].
  - rewrite andb_true_iff, IH. split.
    + intros [H0 Ht] [| i] x y Hx Hy.
      * cbn in Hx, Hy. injection Hx as <-. destruct l as [| b l]; [discriminate |].
        cbn in Hy. injection Hy as <-. apply bool_decide_eq_true in H0. exact H0.
      * cbn in Hx, Hy. eapply Ht; eassumption.
    + intros H. split.
      * destruct l as [| b l]; [reflexivity |]. apply bool_decide_eq_true.
        apply (H 0%nat a b); reflexivity.
      * intros i x y Hx Hy. apply (H (S i) x y); assumption.
Qed.

Lemma nondecreasing_lookup (l : list Qc) :
  nondecreasing l = true
  <-> forall (i : nat) (a b : Qc), l !! i = Some a -> l !! S i = Some b -> a <= b.
Proof.
  induction l as [| a l IH]; cbn [nondecreasing].
  - split; [intros _ i a b H; discriminate H | reflexivity].
  - rewrite andb_true_iff, IH. split.
    + intros [H0 Ht] [| i] x y Hx Hy.
      * cbn in Hx, Hy. injection Hx as <-. destruct l as [| b l]; [discriminate |].
        cbn in Hy. injection Hy as <-. apply bool_decide_eq_true in H0. exact H0.
      * cbn in Hx, Hy. eapply Ht; eassumption.
    + intros H. split.
      * destruct l as [| b l]; [reflexivity |]. apply bool_decide_eq_true.
        apply (H 0%nat a b); reflexivity.
      * intros i x y Hx Hy. apply (H (S i) x y); assumption.
Qed.









